(** * The implementors registry of [core::ops::SubAssign]

    A verification development for
    [implementors/core/ops/trait.SubAssign.js], the generated
    documentation-data script that builds a table from crate names to
    rendered "impl" fragments and hands it to the documentation viewer,
    either through the global function [register_implementors] or, when that
    function is not there yet, through the global [pending_implementors].

    The script is one immediately-invoked function:
<<
    (function() {var implementors = {};
    implementors['libloading'] = []; ... implementors['winit'] = [];
        if (window.register_implementors) {
            window.register_implementors(implementors);
        } else {
            window.pending_implementors = implementors;
        }
    })()
>>
    Its first two lines are embedded as [assignments] and
    [exec_assignments]; the conditional is embedded as [publish]; the whole
    function is [load]. *)

From Stdlib Require Import ZArith.
From stdpp Require Import base strings list gmap fin_maps.

Set Warnings "-register-all".
Local Open Scope string_scope.
Local Open Scope list_scope.

(** ** JavaScript values *)

(** Host functions are first-class values that live in properties of the
    global object, so a function value is an identifier, and its behaviour
    is looked up in the host (see [host] below). *)
Definition fid := nat.

(** The values the script can meet.  Numbers are restricted to integers
    (the script has no arithmetic; only truthiness of a number matters).
    An object is its own properties in insertion order, which is the order
    JavaScript enumerates string keys in; an array is its elements.  Objects
    and arrays are modelled by their contents: the script never reads
    [implementors] again after handing it over, so no claim depends on the
    identity of the object. *)
Inductive value : Type :=
| VUndefined
| VNull
| VBool (b : bool)
| VNum (n : Z)
| VStr (s : string)
| VFun (f : fid)
| VArr (elems : list value)
| VObj (props : list (string * value)).

Definition jsobj := list (string * value).

(** [ToBoolean]: what [if (e)] tests. *)
Definition truthy (v : value) : bool :=
  match v with
  | VUndefined | VNull => false
  | VBool b => b
  | VNum n => negb (n =? 0)%Z
  | VStr s => negb (String.eqb s "")
  | VFun _ | VArr _ | VObj _ => true
  end.

(** ** Properties of a plain object *)

(** [o[k]] as an own-property lookup. *)
Fixpoint get_own (o : jsobj) (k : string) : option value :=
  match o with
  | [] => None
  | (k', v) :: o' => if String.eqb k' k then Some v else get_own o' k
  end.

(** [o[k] = v]: an existing property keeps its place and takes the new
    value; a new property is added after the others. *)
Fixpoint set_prop (o : jsobj) (k : string) (v : value) : jsobj :=
  match o with
  | [] => [(k, v)]
  | (k', v') :: o' =>
      if String.eqb k' k then (k', v) :: o' else (k', v') :: set_prop o' k v
  end.

Definition keys (o : jsobj) : list string := map fst o.

(** ** Lines 1-2: the registry literal *)

(** The ten statements [implementors[k] = [...]] in source order.  A
    trailing comma in an array literal adds no element. *)
Definition assignments : list (string * value) :=
  [
    ("libloading", VArr []);
    ("libc", VArr []);
    ("dlib", VArr []);
    ("wayland_sys", VArr []);
    ("shared_library", VArr []);
    ("wayland_client",
     VArr [
         VStr "impl <a class='trait' href='https://doc.rust-lang.org/nightly/core/ops/trait.SubAssign.html' title='core::ops::SubAssign'>SubAssign</a> for <a class='struct' href='wayland_client/wayland/shell/WlShellSurfaceResize/struct.WlShellSurfaceResize.html' title='wayland_client::wayland::shell::WlShellSurfaceResize::WlShellSurfaceResize'>WlShellSurfaceResize</a>";
         VStr "impl <a class='trait' href='https://doc.rust-lang.org/nightly/core/ops/trait.SubAssign.html' title='core::ops::SubAssign'>SubAssign</a> for <a class='struct' href='wayland_client/wayland/shell/WlShellSurfaceTransient/struct.WlShellSurfaceTransient.html' title='wayland_client::wayland::shell::WlShellSurfaceTransient::WlShellSurfaceTransient'>WlShellSurfaceTransient</a>";
         VStr "impl <a class='trait' href='https://doc.rust-lang.org/nightly/core/ops/trait.SubAssign.html' title='core::ops::SubAssign'>SubAssign</a> for <a class='struct' href='wayland_client/wayland/seat/WlSeatCapability/struct.WlSeatCapability.html' title='wayland_client::wayland::seat::WlSeatCapability::WlSeatCapability'>WlSeatCapability</a>";
         VStr "impl <a class='trait' href='https://doc.rust-lang.org/nightly/core/ops/trait.SubAssign.html' title='core::ops::SubAssign'>SubAssign</a> for <a class='struct' href='wayland_client/wayland/output/WlOutputMode/struct.WlOutputMode.html' title='wayland_client::wayland::output::WlOutputMode::WlOutputMode'>WlOutputMode</a>";
         VStr "impl <a class='trait' href='https://doc.rust-lang.org/nightly/core/ops/trait.SubAssign.html' title='core::ops::SubAssign'>SubAssign</a> for <a class='struct' href='wayland_client/wayland/output/WlOutputMode/struct.WlOutputMode.html' title='wayland_client::wayland::output::WlOutputMode::WlOutputMode'>WlOutputMode</a>";
         VStr "impl <a class='trait' href='https://doc.rust-lang.org/nightly/core/ops/trait.SubAssign.html' title='core::ops::SubAssign'>SubAssign</a> for <a class='struct' href='wayland_client/wayland/seat/WlSeatCapability/struct.WlSeatCapability.html' title='wayland_client::wayland::seat::WlSeatCapability::WlSeatCapability'>WlSeatCapability</a>";
         VStr "impl <a class='trait' href='https://doc.rust-lang.org/nightly/core/ops/trait.SubAssign.html' title='core::ops::SubAssign'>SubAssign</a> for <a class='struct' href='wayland_client/wayland/shell/WlShellSurfaceResize/struct.WlShellSurfaceResize.html' title='wayland_client::wayland::shell::WlShellSurfaceResize::WlShellSurfaceResize'>WlShellSurfaceResize</a>";
         VStr "impl <a class='trait' href='https://doc.rust-lang.org/nightly/core/ops/trait.SubAssign.html' title='core::ops::SubAssign'>SubAssign</a> for <a class='struct' href='wayland_client/wayland/shell/WlShellSurfaceTransient/struct.WlShellSurfaceTransient.html' title='wayland_client::wayland::shell::WlShellSurfaceTransient::WlShellSurfaceTransient'>WlShellSurfaceTransient</a>"]);
    ("tempfile", VArr []);
    ("wayland_window",
     VArr [
         VStr "impl <a class='trait' href='https://doc.rust-lang.org/nightly/core/ops/trait.SubAssign.html' title='core::ops::SubAssign'>SubAssign</a>&lt;<a class='struct' href='wayland_client/sys/wayland/client/WlShellSurfaceResize/struct.WlShellSurfaceResize.html' title='wayland_client::sys::wayland::client::WlShellSurfaceResize::WlShellSurfaceResize'>WlShellSurfaceResize</a>&gt; for <a class='struct' href='wayland_client/sys/wayland/client/WlShellSurfaceResize/struct.WlShellSurfaceResize.html' title='wayland_client::sys::wayland::client::WlShellSurfaceResize::WlShellSurfaceResize'>WlShellSurfaceResize</a>";
         VStr "impl <a class='trait' href='https://doc.rust-lang.org/nightly/core/ops/trait.SubAssign.html' title='core::ops::SubAssign'>SubAssign</a>&lt;<a class='struct' href='wayland_client/sys/wayland/client/WlShellSurfaceTransient/struct.WlShellSurfaceTransient.html' title='wayland_client::sys::wayland::client::WlShellSurfaceTransient::WlShellSurfaceTransient'>WlShellSurfaceTransient</a>&gt; for <a class='struct' href='wayland_client/sys/wayland/client/WlShellSurfaceTransient/struct.WlShellSurfaceTransient.html' title='wayland_client::sys::wayland::client::WlShellSurfaceTransient::WlShellSurfaceTransient'>WlShellSurfaceTransient</a>";
         VStr "impl <a class='trait' href='https://doc.rust-lang.org/nightly/core/ops/trait.SubAssign.html' title='core::ops::SubAssign'>SubAssign</a>&lt;<a class='struct' href='wayland_client/sys/wayland/client/WlSeatCapability/struct.WlSeatCapability.html' title='wayland_client::sys::wayland::client::WlSeatCapability::WlSeatCapability'>WlSeatCapability</a>&gt; for <a class='struct' href='wayland_client/sys/wayland/client/WlSeatCapability/struct.WlSeatCapability.html' title='wayland_client::sys::wayland::client::WlSeatCapability::WlSeatCapability'>WlSeatCapability</a>";
         VStr "impl <a class='trait' href='https://doc.rust-lang.org/nightly/core/ops/trait.SubAssign.html' title='core::ops::SubAssign'>SubAssign</a>&lt;<a class='struct' href='wayland_client/sys/wayland/client/WlOutputMode/struct.WlOutputMode.html' title='wayland_client::sys::wayland::client::WlOutputMode::WlOutputMode'>WlOutputMode</a>&gt; for <a class='struct' href='wayland_client/sys/wayland/client/WlOutputMode/struct.WlOutputMode.html' title='wayland_client::sys::wayland::client::WlOutputMode::WlOutputMode'>WlOutputMode</a>"]);
    ("wayland_kbd", VArr []);
    ("winit", VArr [])
  ].

Definition exec_assignments (stmts : list (string * value)) (o : jsobj) : jsobj :=
  fold_left (fun acc kv => set_prop acc kv.1 kv.2) stmts o.

(** [var implementors = {}] followed by the ten assignments. *)
Definition implementors : jsobj := exec_assignments assignments [].

(** ** The global object and the host *)

(** [window]: the global object, a finite map from property names to
    values.  Reading a property that is not there gives [undefined].  The
    script is run by a browser, where the global object is reachable under
    the name [window]; both reads of [window.register_implementors] see the
    same binding, since nothing runs between them. *)
Abbreviation window := (gmap string value).

Definition get_global (w : window) (k : string) : value :=
  default VUndefined (w !! k).

(** The two well-known property names. *)
Definition register_implementors : string := "register_implementors".
Definition pending_implementors : string := "pending_implementors".

(** What a host function does when it is called with one argument in a
    given global state: it returns or throws, and leaves a global state
    behind either way.  Host functions are taken to terminate. *)
Inductive hook_result : Type :=
| HReturn (ret : value) (w' : window)
| HThrow (exn : value) (w' : window).

Definition hook_globals (r : hook_result) : window :=
  match r with
  | HReturn _ w' => w'
  | HThrow _ w' => w'
  end.

Definition hook_throws (r : hook_result) : bool :=
  match r with
  | HReturn _ _ => false
  | HThrow _ _ => true
  end.

(** ** What a load does *)

(** The effects the script performs itself, in order: a call of a host
    function with an argument, or an assignment to a property of [window].
    Whatever a called host function does is not listed here; it shows in
    the global state that the call leaves. *)
Inductive event : Type :=
| ECall (f : fid) (arg : value)
| EWrite (k : string) (v : value).

(** How the script ends: normally, with the [TypeError] that a call
    expression raises when its callee is not callable, or with the
    exception that the called host function raised, which the script does
    not catch. *)
Inductive completion : Type :=
| Normal
| TypeError
| HookThrew (exn : value).

Record run : Type := mkRun {
  constructed : jsobj;       (* the local [implementors] *)
  result : completion;
  globals : window;          (* the global object afterwards *)
  trace : list event         (* the script's own effects *)
}.

Definition calls (t : list event) : list (fid * value) :=
  omap (fun e => match e with ECall f a => Some (f, a) | EWrite _ _ => None end) t.

Definition writes (t : list event) : list (string * value) :=
  omap (fun e => match e with EWrite k v => Some (k, v) | ECall _ _ => None end) t.

(** The value the script hands to the host: the argument of the call it
    makes, or the value it stores. *)
Definition handed_over (r : run) : option value :=
  match trace r with
  | ECall _ a :: _ => Some a
  | EWrite _ v :: _ => Some v
  | [] => None
  end.

Section Publish.

(** The behaviour of every host function. *)
Variable host : fid -> value -> window -> hook_result.

(** [callee(arg)] as an expression statement: the returned value is
    dropped, an exception propagates. *)
Definition call (callee arg : value) (w : window)
  : completion * window * list event :=
  match callee with
  | VFun f =>
      match host f arg w with
      | HReturn _ w' => (Normal, w', [ECall f arg])
      | HThrow exn w' => (HookThrew exn, w', [ECall f arg])
      end
  | _ => (TypeError, w, [])
  end.

(** Lines 4-8: the conditional. *)
Definition publish (implementors : jsobj) (w : window)
  : completion * window * list event :=
  if truthy (get_global w register_implementors) then
    call (get_global w register_implementors) (VObj implementors) w
  else
    (Normal,
     <[pending_implementors := VObj implementors]> w,
     [EWrite pending_implementors (VObj implementors)]).

(** The whole function: build the registry, then publish it. *)
Definition load (w : window) : run :=
  let implementors := exec_assignments assignments [] in
  let '(c, w', t) := publish implementors w in
  {| constructed := implementors; result := c; globals := w'; trace := t |}.

End Publish.

(** ** Hosts and global states used as test inputs *)

(** No host function touches anything. *)
Definition quiet_host (f : fid) (arg : value) (w : window) : hook_result :=
  HReturn VUndefined w.

(** A recorder: every host function stores its argument in the global
    [seen]. *)
Definition recorder_host (f : fid) (arg : value) (w : window) : hook_result :=
  HReturn VUndefined (<["seen" := arg]> w).

(** Every host function throws the string ["boom"]. *)
Definition throwing_host (f : fid) (arg : value) (w : window) : hook_result :=
  HThrow (VStr "boom") w.

(** A host function that itself fills the buffered slot with what it gets. *)
Definition buffering_host (f : fid) (arg : value) (w : window) : hook_result :=
  HReturn VUndefined (<[pending_implementors := arg]> w).

Definition fresh_window : window := ∅.
Definition hooked_window : window := {[ register_implementors := VFun 0 ]}.
Definition odd_window : window := {[ register_implementors := VBool true ]}.

(** ** Well-formed registries *)

(** A markup fragment is a string; the script never looks inside one. *)
Definition is_fragment (v : value) : bool :=
  match v with
  | VStr _ => true
  | _ => false
  end.

Definition is_fragment_list (v : value) : bool :=
  match v with
  | VArr elems => forallb is_fragment elems
  | _ => false
  end.

(** Every key of the registry is bound to a list of fragments. *)
Definition wf_registry (o : jsobj) : bool :=
  forallb (fun kv => is_fragment_list kv.2) o.

Definition wf_registry_value (v : value) : bool :=
  match v with
  | VObj o => wf_registry o
  | _ => false
  end.

(** The strings of the list bound to [k] (none when [k] is not bound to a
    list). *)
Definition fragments (o : jsobj) (k : string) : list string :=
  match get_own o k with
  | Some (VArr elems) =>
      omap (fun v => match v with VStr s => Some s | _ => None end) elems
  | _ => []
  end.

(** ** The two ways of handing the registry over, read off a run *)

(** Path (a) of a load from [w]: the script called the function that
    [register_implementors] held, once, with [v], and made no other
    call. *)
Definition hook_path (w : window) (r : run) (v : value) : Prop :=
  exists f, get_global w register_implementors = VFun f /\ calls (trace r) = [(f, v)].

(** Path (b): the script stored [v] in [pending_implementors], once, and
    the slot holds [v] afterwards. *)
Definition buffer_path (r : run) (v : value) : Prop :=
  writes (trace r) = [(pending_implementors, v)] /\
  globals r !! pending_implementors = Some v.

(** How a call ends, from what the called function did. *)
Definition completion_of_hook (r : hook_result) : completion :=
  match r with
  | HReturn _ _ => Normal
  | HThrow exn _ => HookThrew exn
  end.

(** The hook slot holds what the host contract allows: a function, or
    nothing that counts as present. *)
Definition callable_or_falsy (v : value) : bool :=
  match v with
  | VFun _ => true
  | _ => negb (truthy v)
  end.

(** A load has no failure of its own: it ends normally, or it ends with
    the exception that the hook it called raised. *)
Definition no_intrinsic_failure
    (host : fid -> value -> window -> hook_result) (w : window) : Prop :=
  result (load host w) = Normal \/
  exists f exn w',
    get_global w register_implementors = VFun f /\
    host f (VObj implementors) w = HThrow exn w' /\
    result (load host w) = HookThrew exn.

(** ** Reading a run of assignments *)


(** A host whose function 0 returns without touching anything, and whose
    other functions throw. *)
Definition picky_host (f : fid) (arg : value) (w : window) : hook_result :=
  match f with
  | 0 => HReturn VUndefined w
  | _ => HThrow (VStr "boom") w
  end.

(** * Properties of the object operations *)

Section ObjectLemmas.

Implicit Types (o : jsobj) (k : string) (v : value).

Lemma get_own_None_keys o k : get_own o k = None <-> k ∉ keys o.
Proof.
  induction o as [|[k' v'] o IH]; simpl.
  - split; [intros _; apply not_elem_of_nil | done].
  - destruct (String.eqb_spec k' k) as [->|Hne].
    + split; [done | intros H; exfalso; apply H; left].
    + rewrite IH, not_elem_of_cons. split; [intros H; split; [congruence | done] | intros [_ H]; done].
Qed.



(** Assigning to a property the object does not have appends it. *)
Lemma set_prop_fresh o k v : k ∉ keys o -> set_prop o k v = o ++ [(k, v)].
Proof.
  induction o as [|[k' v'] o IH]; simpl; [done|].
  rewrite not_elem_of_cons. intros [Hne Hnin].
  destruct (String.eqb_spec k' k) as [->|_]; [done|].
  by rewrite IH.
Qed.


(** A run of assignments to pairwise different, new keys builds the
    object that lists them in the order written. *)
Lemma exec_assignments_fresh stmts o :
  NoDup (keys o ++ keys stmts) -> exec_assignments stmts o = o ++ stmts.
Proof.
  revert o. induction stmts as [|[k v] stmts IH]; intros o Hnd; simpl.
  - by rewrite app_nil_r.
  - unfold exec_assignments in *. simpl.
    assert (k ∉ keys o) as Hfresh.
    { apply NoDup_app in Hnd as (_ & Hdisj & _).
      intros Hin. apply (Hdisj k Hin). left. }
    rewrite (set_prop_fresh o k v Hfresh), IH.
    + by rewrite <- app_assoc.
    + unfold keys in *. rewrite map_app. simpl.
      by rewrite <- app_assoc.
Qed.

End ObjectLemmas.

(** * Well-formedness is an invariant of the construction *)

Section WellFormed.

Implicit Types (o : jsobj) (k : string) (v : value).

Lemma wf_set_prop o k v :
  wf_registry o = true -> is_fragment_list v = true ->
  wf_registry (set_prop o k v) = true.
Proof.
  intros Ho Hv. induction o as [|[k' v'] o IH]; simpl in *.
  - by rewrite Hv.
  - apply andb_true_iff in Ho as [Hv' Ho].
    destruct (String.eqb k' k); simpl.
    + by rewrite Hv, Ho.
    + by rewrite Hv', IH.
Qed.

Lemma wf_exec_assignments stmts o :
  wf_registry o = true ->
  forallb (fun kv => is_fragment_list kv.2) stmts = true ->
  wf_registry (exec_assignments stmts o) = true.
Proof.
  revert o. induction stmts as [|[k v] stmts IH]; intros o Ho Hs; [done|].
  simpl in Hs. apply andb_true_iff in Hs as [Hv Hs].
  unfold exec_assignments in *. simpl.
  apply IH; [by apply wf_set_prop | done].
Qed.

Lemma wf_get_own o k v :
  wf_registry o = true -> get_own o k = Some v -> is_fragment_list v = true.
Proof.
  induction o as [|[k' v'] o IH]; simpl; [done|].
  intros Ho Hget. apply andb_true_iff in Ho as [Hv' Ho].
  destruct (String.eqb k' k); [congruence | by apply IH].
Qed.

Lemma forallb_take {A} (p : A -> bool) (l : list A) n :
  forallb p l = true -> forallb p (take n l) = true.
Proof.
  revert n. induction l as [|x l IH]; intros [|n]; simpl; try done.
  intros H. apply andb_true_iff in H as [Hx Hl]. by rewrite Hx, IH.
Qed.

End WellFormed.

(** * Facts about the literal *)

Lemma assignments_fragment_lists :
  forallb (fun kv => is_fragment_list kv.2) assignments = true.
Proof. vm_compute. reflexivity. Qed.

Lemma assignments_keys_NoDup : NoDup (keys assignments).
Proof. apply (bool_decide_unpack _). vm_compute. exact I. Qed.

(** No key is assigned twice, so the object is the list of the
    assignments as written. *)
Lemma implementors_as_written : implementors = assignments.
Proof.
  unfold implementors. rewrite exec_assignments_fresh; [done|].
  apply assignments_keys_NoDup.
Qed.

(** * The three cases of the conditional *)

Section LoadCases.

Variable host : fid -> value -> window -> hook_result.
Implicit Types (w : window).

Lemma constructed_load w : constructed (load host w) = implementors.
Proof. unfold load. destruct (publish _ _ _) as [[c w'] t]. reflexivity. Qed.

(** The hook slot holds a function: it is called. *)
Lemma load_hook w f :
  get_global w register_implementors = VFun f ->
  load host w =
    {| constructed := implementors;
       result := completion_of_hook (host f (VObj implementors) w);
       globals := hook_globals (host f (VObj implementors) w);
       trace := [ECall f (VObj implementors)] |}.
Proof.
  intros Hf. unfold load, publish, call. rewrite Hf. cbn [truthy].
  change (exec_assignments assignments []) with implementors.
  destruct (host f (VObj implementors) w); reflexivity.
Qed.

(** The hook slot holds a falsy value: the registry is buffered. *)
Lemma load_falsy w :
  truthy (get_global w register_implementors) = false ->
  load host w =
    {| constructed := implementors;
       result := Normal;
       globals := <[pending_implementors := VObj implementors]> w;
       trace := [EWrite pending_implementors (VObj implementors)] |}.
Proof. intros Hf. unfold load, publish. rewrite Hf. reflexivity. Qed.

(** The hook slot holds a truthy value that is not a function: the call
    expression raises, nothing is called and nothing is stored. *)
Lemma load_not_callable w :
  callable_or_falsy (get_global w register_implementors) = false ->
  load host w =
    {| constructed := implementors;
       result := TypeError;
       globals := w;
       trace := [] |}.
Proof.
  intros Hf. unfold load, publish, call.
  destruct (get_global w register_implementors) as [| |[]|n|s|f|l|o];
    cbn [callable_or_falsy truthy negb] in *; try discriminate;
    try reflexivity.
  - apply negb_false_iff in Hf. rewrite Hf. reflexivity.
  - apply negb_false_iff in Hf. rewrite Hf. reflexivity.
Qed.

(** The slot is in exactly one of the three cases. *)
Lemma hook_slot_cases w :
  (exists f, get_global w register_implementors = VFun f) \/
  truthy (get_global w register_implementors) = false \/
  callable_or_falsy (get_global w register_implementors) = false.
Proof.
  destruct (get_global w register_implementors) as [| |[]|n|s|f|l|o];
    simpl; eauto.
  - destruct (n =? 0)%Z; simpl; eauto.
  - destruct (String.eqb s ""); simpl; eauto.
Qed.

End LoadCases.

(** * The registry *)

(** C9. The constructed registry has exactly the ten keys [libloading],
    [libc], [dlib], [wayland_sys], [shared_library], [wayland_client],
    [tempfile], [wayland_window], [wayland_kbd] and [winit], in that order.
    Eight of them are bound to the empty list.  [wayland_window] is bound
    to a list of four strings, pairwise different.  [wayland_client] is
    bound to a list of eight strings made of four different ones, each
    occurring exactly twice: nothing removes the repeated entries. *)
Theorem registry_contents :
  keys implementors =
    ["libloading"; "libc"; "dlib"; "wayland_sys"; "shared_library";
     "wayland_client"; "tempfile"; "wayland_window"; "wayland_kbd"; "winit"] /\
  Forall (fun k => get_own implementors k = Some (VArr []))
    ["libloading"; "libc"; "dlib"; "wayland_sys"; "shared_library";
     "tempfile"; "wayland_kbd"; "winit"] /\
  get_own implementors "wayland_window" =
    Some (VArr (map VStr (fragments implementors "wayland_window"))) /\
  length (fragments implementors "wayland_window") = 4 /\
  NoDup (fragments implementors "wayland_window") /\
  get_own implementors "wayland_client" =
    Some (VArr (map VStr (fragments implementors "wayland_client"))) /\
  length (fragments implementors "wayland_client") = 8 /\
  length (remove_dups (fragments implementors "wayland_client")) = 4 /\
  Forall (fun s =>
            count_occ String.string_dec (fragments implementors "wayland_client") s = 2)
         (fragments implementors "wayland_client").
Proof.
  rewrite implementors_as_written.
  repeat split.
  - repeat constructor.
  - apply (bool_decide_unpack _). vm_compute. exact I.
  - repeat constructor.
Qed.

(** Whatever a load hands over is the registry it constructed. *)
Lemma registry_fidelity_core
    (host : fid -> value -> window -> hook_result) (w : window) (v : value) :
  handed_over (load host w) = Some v -> v = VObj implementors.
Proof.
  intros Hv. destruct (hook_slot_cases w) as [[f Hf]|[Hf|Hf]].
  - rewrite (load_hook host w f Hf) in Hv. by injection Hv.
  - rewrite (load_falsy host w Hf) in Hv. by injection Hv.
  - rewrite (load_not_callable host w Hf) in Hv. discriminate.
Qed.

(** C6. Every key of the registry is bound to a list of fragment strings
    (the list may be empty).  This holds after each of the assignments that
    construct the registry, so for the finished registry and each of its
    keys, and publishing keeps it: the local [implementors] is still
    well-formed after the load, and so is the value that was handed over. *)
Theorem registry_well_formed
    (host : fid -> value -> window -> hook_result) (w : window) :
  (forall n, wf_registry (exec_assignments (take n assignments) []) = true) /\
  wf_registry implementors = true /\
  (forall k v, get_own implementors k = Some v -> is_fragment_list v = true) /\
  wf_registry (constructed (load host w)) = true /\
  (forall v, handed_over (load host w) = Some v -> wf_registry_value v = true).
Proof.
  assert (forall n, wf_registry (exec_assignments (take n assignments) []) = true)
    as Hsteps.
  { intros n. apply wf_exec_assignments; [reflexivity|].
    apply forallb_take, assignments_fragment_lists. }
  assert (wf_registry implementors = true) as Hwf.
  { apply wf_exec_assignments; [reflexivity | apply assignments_fragment_lists]. }
  split; [exact Hsteps|]. split; [exact Hwf|].
  split; [intros k v; by apply wf_get_own|].
  split; [by rewrite constructed_load|].
  intros v Hv. rewrite (registry_fidelity_core host w v Hv). exact Hwf.
Qed.

(** C5. The mapping handed to the host, through the call or through the
    buffered slot, is the registry as authored: it is the object the load
    constructed, its keys are the keys of the assignments in the order
    written, every key is bound to exactly the list assigned to it, and no
    other key is bound. *)
Theorem registry_fidelity
    (host : fid -> value -> window -> hook_result) (w : window) (v : value) :
  handed_over (load host w) = Some v ->
  exists o,
    v = VObj o /\
    o = constructed (load host w) /\
    keys o = keys assignments /\
    Forall (fun kv => get_own o kv.1 = Some kv.2) assignments /\
    (forall k, k ∉ keys assignments -> get_own o k = None).
Proof.
  intros Hv. exists implementors.
  rewrite (registry_fidelity_core host w v Hv).
  split; [reflexivity|]. split; [by rewrite constructed_load|].
  rewrite implementors_as_written.
  split; [reflexivity|]. split.
  - repeat constructor.
  - intros k Hk. by apply get_own_None_keys.
Qed.

Lemma registry_fidelity_witness :
  handed_over (load quiet_host fresh_window) = Some (VObj implementors) /\
  exists o,
    VObj implementors = VObj o /\
    o = constructed (load quiet_host fresh_window) /\
    keys o = keys assignments /\
    Forall (fun kv => get_own o kv.1 = Some kv.2) assignments /\
    (forall k, k ∉ keys assignments -> get_own o k = None).
Proof.
  split; [reflexivity|].
  apply (registry_fidelity quiet_host fresh_window (VObj implementors)).
  reflexivity.
Defined.

(** C7. Two loads, in any two global states and with any two hosts,
    construct the same registry; and when both hand a value over, they
    hand over the same value.  The construction reads nothing of the
    environment. *)
Theorem construction_deterministic
    (host1 host2 : fid -> value -> window -> hook_result) (w1 w2 : window) :
  constructed (load host1 w1) = constructed (load host2 w2) /\
  (forall v1 v2,
     handed_over (load host1 w1) = Some v1 ->
     handed_over (load host2 w2) = Some v2 ->
     v1 = v2).
Proof.
  split; [by rewrite !constructed_load|].
  intros v1 v2 H1 H2.
  rewrite (registry_fidelity_core host1 w1 v1 H1).
  rewrite (registry_fidelity_core host2 w2 v2 H2).
  reflexivity.
Qed.

(** * Publishing *)

(** Loads at concrete inputs. *)

Example load_fresh_window :
  load quiet_host fresh_window =
    {| constructed := implementors;
       result := Normal;
       globals := {[ pending_implementors := VObj implementors ]};
       trace := [EWrite pending_implementors (VObj implementors)] |}.
Proof. reflexivity. Qed.

Example load_hooked_window :
  load recorder_host hooked_window =
    {| constructed := implementors;
       result := Normal;
       globals := <["seen" := VObj implementors]> hooked_window;
       trace := [ECall 0 (VObj implementors)] |}.
Proof. reflexivity. Qed.

Example load_throwing_hook :
  load throwing_host hooked_window =
    {| constructed := implementors;
       result := HookThrew (VStr "boom");
       globals := hooked_window;
       trace := [ECall 0 (VObj implementors)] |}.
Proof. reflexivity. Qed.

(** A falsy value in the hook slot counts as no hook. *)
Example load_null_hook :
  trace (load quiet_host {[ register_implementors := VNull ]}) =
    [EWrite pending_implementors (VObj implementors)].
Proof. reflexivity. Qed.

(** A hook may fill the buffered slot itself; the script still made the
    call and no store. *)
Example load_buffering_hook :
  trace (load buffering_host hooked_window) = [ECall 0 (VObj implementors)] /\
  globals (load buffering_host hooked_window) !! pending_implementors =
    Some (VObj implementors).
Proof. split; reflexivity. Qed.

(** C1. In each of the two states of the hook slot before the load
    ([register_implementors] holds a function, or is undefined), the load
    takes exactly one of the two paths: (a) it calls that function once
    with the registry, or (b) it stores the registry in
    [pending_implementors], which then holds it.  Never both, never
    neither. *)
Theorem publish_exactly_one_path
    (host : fid -> value -> window -> hook_result) (w : window) :
  (exists f, get_global w register_implementors = VFun f) \/
  get_global w register_implementors = VUndefined ->
  let r := load host w in
  let registry := VObj implementors in
  (hook_path w r registry /\ ~ buffer_path r registry) \/
  (~ hook_path w r registry /\ buffer_path r registry).
Proof.
  intros [[f Hf]|Hu] r registry; subst r registry.
  - left. rewrite (load_hook host w f Hf). split.
    + exists f. split; [exact Hf | reflexivity].
    + intros [Hw _]. cbn in Hw. discriminate.
  - right. rewrite (load_falsy host w) by (rewrite Hu; reflexivity). split.
    + intros [f [Hf _]]. congruence.
    + split; [reflexivity|]. cbn [globals]. apply lookup_insert_eq.
Qed.

Lemma publish_exactly_one_path_witness :
  (let r := load recorder_host hooked_window in
   (hook_path hooked_window r (VObj implementors) /\
    ~ buffer_path r (VObj implementors)) \/
   (~ hook_path hooked_window r (VObj implementors) /\
    buffer_path r (VObj implementors))) /\
  (let r := load quiet_host fresh_window in
   (hook_path fresh_window r (VObj implementors) /\
    ~ buffer_path r (VObj implementors)) \/
   (~ hook_path fresh_window r (VObj implementors) /\
    buffer_path r (VObj implementors))).
Proof.
  split.
  - apply (publish_exactly_one_path recorder_host hooked_window).
    left. exists 0. reflexivity.
  - apply (publish_exactly_one_path quiet_host fresh_window).
    right. reflexivity.
Defined.

(** C2. If [register_implementors] holds a function before the load, the
    load calls it exactly once, with the registry, and does nothing else
    itself; the call has run to its end when the load ends (the global
    state and the completion of the load are those the call left); and the
    keys of the argument are the keys assigned in the literal. *)
Theorem hook_called_once_with_registry
    (host : fid -> value -> window -> hook_result) (w : window) (f : fid) :
  get_global w register_implementors = VFun f ->
  let r := load host w in
  trace r = [ECall f (VObj implementors)] /\
  calls (trace r) = [(f, VObj implementors)] /\
  globals r = hook_globals (host f (VObj implementors) w) /\
  result r = completion_of_hook (host f (VObj implementors) w) /\
  keys implementors = keys assignments.
Proof.
  intros Hf r; subst r. rewrite (load_hook host w f Hf).
  rewrite implementors_as_written. repeat split.
Qed.

Lemma hook_called_once_with_registry_witness :
  get_global hooked_window register_implementors = VFun 0 /\
  let r := load recorder_host hooked_window in
  trace r = [ECall 0 (VObj implementors)] /\
  calls (trace r) = [(0, VObj implementors)] /\
  globals r = hook_globals (recorder_host 0 (VObj implementors) hooked_window) /\
  result r = completion_of_hook (recorder_host 0 (VObj implementors) hooked_window) /\
  keys implementors = keys assignments.
Proof.
  split; [reflexivity|].
  apply (hook_called_once_with_registry recorder_host hooked_window 0).
  reflexivity.
Defined.

(** C3. If [register_implementors] is undefined at load time, then after
    the load [pending_implementors] holds the registry (and the load ended
    normally, having called nothing). *)
Theorem registry_buffered_when_hook_undefined
    (host : fid -> value -> window -> hook_result) (w : window) :
  get_global w register_implementors = VUndefined ->
  let r := load host w in
  globals r !! pending_implementors = Some (VObj implementors) /\
  get_global (globals r) pending_implementors = VObj implementors /\
  result r = Normal /\
  calls (trace r) = [].
Proof.
  intros Hu r; subst r.
  rewrite (load_falsy host w) by (rewrite Hu; reflexivity).
  cbn [globals result trace]. unfold get_global.
  rewrite lookup_insert_eq. repeat split.
Qed.

Lemma registry_buffered_when_hook_undefined_witness :
  get_global fresh_window register_implementors = VUndefined /\
  let r := load quiet_host fresh_window in
  globals r !! pending_implementors = Some (VObj implementors) /\
  get_global (globals r) pending_implementors = VObj implementors /\
  result r = Normal /\
  calls (trace r) = [].
Proof.
  split; [reflexivity|].
  apply (registry_buffered_when_hook_undefined quiet_host fresh_window).
  reflexivity.
Defined.

(** C4. The two paths do not interfere, whatever the global state and the
    host: a load that calls the hook makes no store of its own (so the
    global state afterwards is the one the call left), and a load that
    stores into [pending_implementors] calls nothing. *)
Theorem publish_paths_do_not_interfere
    (host : fid -> value -> window -> hook_result) (w : window) :
  let r := load host w in
  (calls (trace r) <> [] ->
     writes (trace r) = [] /\
     exists f, globals r = hook_globals (host f (VObj implementors) w)) /\
  (writes (trace r) <> [] -> calls (trace r) = []).
Proof.
  intros r; subst r.
  destruct (hook_slot_cases w) as [[f Hf]|[Hf|Hf]].
  - rewrite (load_hook host w f Hf). split.
    + intros _. split; [reflexivity | by exists f].
    + intros H. exfalso. apply H. reflexivity.
  - rewrite (load_falsy host w Hf). split; [|reflexivity].
    intros H. exfalso. apply H. reflexivity.
  - rewrite (load_not_callable host w Hf). split; [|reflexivity].
    intros H. exfalso. apply H. reflexivity.
Qed.

(** * Failure *)

Lemma callable_or_falsy_cases (v : value) :
  callable_or_falsy v = true -> (exists f, v = VFun f) \/ truthy v = false.
Proof.
  destruct v; cbn [callable_or_falsy truthy]; eauto;
    intros H; right; by apply negb_true_iff in H.
Qed.

(** C8, as stated, fails: with [register_implementors] bound to [true]
    the test of the conditional succeeds, the call expression raises a
    [TypeError] because [true] is not callable, no host function was
    called, and nothing was stored.  That failure is not one raised by a
    hook. *)
Lemma load_fails_on_truthy_non_function :
  result (load quiet_host odd_window) = TypeError /\
  trace (load quiet_host odd_window) = [] /\
  ~ no_intrinsic_failure quiet_host odd_window.
Proof.
  assert (get_global odd_window register_implementors = VBool true) as Hslot
    by reflexivity.
  assert (load quiet_host odd_window = mkRun implementors TypeError odd_window [])
    as Hload by (apply load_not_callable; rewrite Hslot; reflexivity).
  rewrite Hload. cbn [result trace]. repeat split.
  intros [H | (f & exn & w' & Hf & _)].
  - rewrite Hload in H. discriminate.
  - congruence.
Qed.

(** C8, amended.  In every global state in which [register_implementors]
    holds a function or a falsy value (undefined among them), the load has
    no failure of its own: it ends normally, or with the exception raised
    by the hook it called.  An exception of the hook is not caught: it is
    the completion of the load.  If the hook does not throw, the load ends
    normally. *)
Theorem no_intrinsic_failure_when_callable_or_falsy
    (host : fid -> value -> window -> hook_result) (w : window) :
  callable_or_falsy (get_global w register_implementors) = true ->
  no_intrinsic_failure host w /\
  (forall f exn w',
     get_global w register_implementors = VFun f ->
     host f (VObj implementors) w = HThrow exn w' ->
     result (load host w) = HookThrew exn) /\
  ((forall f, hook_throws (host f (VObj implementors) w) = false) ->
   result (load host w) = Normal).
Proof.
  intros Hslot.
  destruct (callable_or_falsy_cases _ Hslot) as [[f Hf]|Hf].
  - rewrite (load_hook host w f Hf). cbn [result].
    unfold no_intrinsic_failure. rewrite (load_hook host w f Hf). cbn [result].
    split; [|split].
    + destruct (host f (VObj implementors) w) as [ret w'|exn w'] eqn:Hcall.
      * by left.
      * right. by exists f, exn, w'.
    + intros f' exn w' Hf' Hthrow.
      assert (f' = f) as -> by congruence. by rewrite Hthrow.
    + intros Hquiet. specialize (Hquiet f).
      by destruct (host f (VObj implementors) w).
  - unfold no_intrinsic_failure. rewrite (load_falsy host w Hf). cbn [result].
    split; [by left|]. split; [|done].
    intros f exn w' Hf'. rewrite Hf' in Hf. discriminate.
Qed.

Lemma no_intrinsic_failure_when_callable_or_falsy_witness :
  callable_or_falsy (get_global hooked_window register_implementors) = true /\
  no_intrinsic_failure throwing_host hooked_window /\
  (forall f exn w',
     get_global hooked_window register_implementors = VFun f ->
     throwing_host f (VObj implementors) hooked_window = HThrow exn w' ->
     result (load throwing_host hooked_window) = HookThrew exn) /\
  ((forall f, hook_throws (throwing_host f (VObj implementors) hooked_window) = false) ->
   result (load throwing_host hooked_window) = Normal).
Proof.
  split; [reflexivity|].
  apply (no_intrinsic_failure_when_callable_or_falsy throwing_host hooked_window).
  reflexivity.
Defined.

(** * Frame *)

(** C10. The load does nothing to the global object but, possibly, call
    what [register_implementors] held or store into
    [pending_implementors].  When the hook slot is falsy, every binding
    other than [pending_implementors] is as before, the hook slot among
    them.  When the hook slot holds a function, the load stores nothing and
    the global object is as the call left it: a binding the hook leaves
    alone, [pending_implementors] included (set or unset), is as before.
    When the call expression raises, the global object is unchanged. *)
Theorem publish_frame
    (host : fid -> value -> window -> hook_result) (w : window) :
  let r := load host w in
  Forall (fun e => match e with
                   | ECall f _ => get_global w register_implementors = VFun f
                   | EWrite k _ => k = pending_implementors
                   end) (trace r) /\
  (truthy (get_global w register_implementors) = false ->
     (forall k, k <> pending_implementors -> globals r !! k = w !! k) /\
     globals r !! register_implementors = w !! register_implementors) /\
  (forall f, get_global w register_implementors = VFun f ->
     writes (trace r) = [] /\
     globals r = hook_globals (host f (VObj implementors) w) /\
     (forall k, hook_globals (host f (VObj implementors) w) !! k = w !! k ->
                globals r !! k = w !! k)) /\
  (callable_or_falsy (get_global w register_implementors) = false ->
     globals r = w).
Proof.
  intros r; subst r.
  destruct (hook_slot_cases w) as [[f Hf]|[Hf|Hf]].
  - rewrite (load_hook host w f Hf). cbn [trace globals].
    split; [by repeat constructor|].
    split; [rewrite Hf; discriminate|].
    split; [|rewrite Hf; discriminate].
    intros f' Hf'. assert (f' = f) as -> by congruence.
    split; [reflexivity|]. split; [reflexivity|]. intros k Hk. exact Hk.
  - rewrite (load_falsy host w Hf). cbn [trace globals].
    split; [by repeat constructor|].
    split; [|split].
    + intros _. split.
      * intros k Hk. by apply lookup_insert_ne.
      * by apply lookup_insert_ne.
    + intros f Hf'. rewrite Hf' in Hf. discriminate.
    + intros Hc. destruct (get_global w register_implementors);
        cbn [callable_or_falsy truthy] in *; try discriminate;
        rewrite Hf in Hc; discriminate.
  - rewrite (load_not_callable host w Hf). cbn [trace globals].
    split; [constructor|].
    split; [|split; [|done]].
    + intros Hfalsy. destruct (get_global w register_implementors);
        cbn [callable_or_falsy truthy] in *; try discriminate;
        rewrite Hfalsy in Hf; discriminate.
    + intros f Hf'. rewrite Hf' in Hf. discriminate.
Qed.


(** * Further properties of the construction *)






(** * Further properties of publishing *)

Lemma falsy_callable_or_falsy (v : value) :
  truthy v = false -> callable_or_falsy v = true.
Proof.
  destruct v; cbn [truthy callable_or_falsy]; try discriminate;
    intros H; by rewrite ?H.
Qed.

(** X3. The value of the hook slot decides what the load does, in every
    global state and with every host: the load's own effects are one call
    of [f] with the registry exactly when the slot holds the function [f];
    they are one store of the registry into [pending_implementors] exactly
    when the slot holds a falsy value; and there are none exactly when the
    slot holds a truthy value that is not a function. *)
Theorem load_outcome_determined_by_slot
    (host : fid -> value -> window -> hook_result) (w : window) :
  let r := load host w in
  (forall f, trace r = [ECall f (VObj implementors)] <->
             get_global w register_implementors = VFun f) /\
  (trace r = [EWrite pending_implementors (VObj implementors)] <->
   truthy (get_global w register_implementors) = false) /\
  (trace r = [] <->
   callable_or_falsy (get_global w register_implementors) = false).
Proof.
  intros r; subst r.
  destruct (hook_slot_cases w) as [[f0 Hf]|[Hf|Hf]].
  - rewrite (load_hook host w f0 Hf); cbn [trace]. rewrite Hf.
    cbn [truthy callable_or_falsy]. split; [|split].
    + intros f. split; intros [= ->]; reflexivity.
    + split; discriminate.
    + split; discriminate.
  - rewrite (load_falsy host w Hf); cbn [trace].
    rewrite (falsy_callable_or_falsy _ Hf). split; [|split].
    + intros f. split; [discriminate|].
      intros Hf'. rewrite Hf' in Hf. discriminate.
    + split; [intros _; exact Hf | reflexivity].
    + split; discriminate.
  - rewrite (load_not_callable host w Hf); cbn [trace]. split; [|split].
    + intros f. split; [discriminate|].
      intros Hf'. rewrite Hf' in Hf. discriminate.
    + split; [discriminate|].
      intros Hfalsy. rewrite (falsy_callable_or_falsy _ Hfalsy) in Hf.
      discriminate.
    + split; [intros _; exact Hf | reflexivity].
Qed.

(** X4. The load ends with a [TypeError] exactly when the hook slot holds
    a truthy value that is not a function; an exception of a hook never
    shows as one.  A load that ends so has handed the registry to nobody
    and has left the global object as it was. *)
Theorem type_error_iff_truthy_non_function
    (host : fid -> value -> window -> hook_result) (w : window) :
  (result (load host w) = TypeError <->
   callable_or_falsy (get_global w register_implementors) = false) /\
  (result (load host w) = TypeError ->
   handed_over (load host w) = None /\ globals (load host w) = w).
Proof.
  destruct (hook_slot_cases w) as [[f Hf]|[Hf|Hf]].
  - rewrite (load_hook host w f Hf); cbn [result]. rewrite Hf.
    cbn [callable_or_falsy].
    destruct (host f (VObj implementors) w); cbn [completion_of_hook].
    + split; [split|]; discriminate.
    + split; [split|]; discriminate.
  - rewrite (load_falsy host w Hf); cbn [result].
    rewrite (falsy_callable_or_falsy _ Hf). split; [split|]; discriminate.
  - rewrite (load_not_callable host w Hf); cbn [result globals].
    split; [split; [intros _; exact Hf | reflexivity]|].
    intros _. split; reflexivity.
Qed.

(** X5. The load consults the host only through the one call it makes:
    two hosts that agree on what the function in the hook slot does when it
    is given the registry in the state before the load give the same run,
    however they differ elsewhere.  With no function in the slot the run
    does not depend on the host at all. *)
Theorem load_host_extensional
    (host1 host2 : fid -> value -> window -> hook_result) (w : window) :
  (forall f, get_global w register_implementors = VFun f ->
             host1 f (VObj implementors) w = host2 f (VObj implementors) w) ->
  load host1 w = load host2 w.
Proof.
  intros Hagree. destruct (hook_slot_cases w) as [[f Hf]|[Hf|Hf]].
  - rewrite (load_hook host1 w f Hf), (load_hook host2 w f Hf).
    by rewrite (Hagree f Hf).
  - by rewrite (load_falsy host1 w Hf), (load_falsy host2 w Hf).
  - by rewrite (load_not_callable host1 w Hf), (load_not_callable host2 w Hf).
Qed.

Lemma load_host_extensional_witness :
  (forall f, get_global hooked_window register_implementors = VFun f ->
             quiet_host f (VObj implementors) hooked_window =
             picky_host f (VObj implementors) hooked_window) /\
  load quiet_host hooked_window = load picky_host hooked_window.
Proof.
  assert (forall f, get_global hooked_window register_implementors = VFun f ->
                    quiet_host f (VObj implementors) hooked_window =
                    picky_host f (VObj implementors) hooked_window) as Hagree.
  { intros f Hf.
    assert (get_global hooked_window register_implementors = VFun 0) as H0
      by reflexivity.
    rewrite H0 in Hf. injection Hf as <-. reflexivity. }
  split; [exact Hagree|].
  apply (load_host_extensional quiet_host picky_host hooked_window Hagree).
Defined.

(** X6. With no hook, loading again changes nothing: a second load in the
    state the first one left stores the same registry over the first one,
    so its run is the run of the first load, global object included.  The
    buffered slot is overwritten, never merged or appended to. *)
Theorem repeated_load_without_hook
    (host1 host2 : fid -> value -> window -> hook_result) (w : window) :
  truthy (get_global w register_implementors) = false ->
  load host2 (globals (load host1 w)) = load host1 w.
Proof.
  intros Hf. rewrite (load_falsy host1 w Hf). cbn [globals].
  rewrite load_falsy.
  - by rewrite insert_insert_eq.
  - unfold get_global. rewrite lookup_insert_ne by done. exact Hf.
Qed.

Lemma repeated_load_without_hook_witness :
  truthy (get_global fresh_window register_implementors) = false /\
  load recorder_host (globals (load quiet_host fresh_window)) =
    load quiet_host fresh_window.
Proof.
  split; [reflexivity|].
  apply (repeated_load_without_hook quiet_host recorder_host fresh_window).
  reflexivity.
Defined.

(** X7. Nothing makes the load a once-only action: when the hook slot
    holds a function before a first load and still holds one after it, a
    second load calls that function with the registry again, so the host
    receives the registry twice; neither load stores anything. *)
Theorem repeated_load_calls_hook_again
    (host : fid -> value -> window -> hook_result) (w : window) (f g : fid) :
  get_global w register_implementors = VFun f ->
  get_global (globals (load host w)) register_implementors = VFun g ->
  let r1 := load host w in
  let r2 := load host (globals r1) in
  calls (trace r1) ++ calls (trace r2) =
    [(f, VObj implementors); (g, VObj implementors)] /\
  writes (trace r1) ++ writes (trace r2) = [].
Proof.
  intros Hf Hg r1 r2; subst r1 r2.
  rewrite (load_hook host _ g Hg). rewrite (load_hook host w f Hf).
  split; reflexivity.
Qed.

Lemma repeated_load_calls_hook_again_witness :
  get_global hooked_window register_implementors = VFun 0 /\
  get_global (globals (load recorder_host hooked_window)) register_implementors
    = VFun 0 /\
  let r1 := load recorder_host hooked_window in
  let r2 := load recorder_host (globals r1) in
  calls (trace r1) ++ calls (trace r2) =
    [(0, VObj implementors); (0, VObj implementors)] /\
  writes (trace r1) ++ writes (trace r2) = [].
Proof.
  split; [reflexivity|]. split; [reflexivity|].
  apply (repeated_load_calls_hook_again recorder_host hooked_window 0 0);
    reflexivity.
Defined.
